(** * Snowflake identifiers: a shallow embedding of [snowflake.py]

    Python integers are unbounded, so every integer of the program is a [Z];
    [<<], [>>], [|] and [&] are [Z.shiftl], [Z.shiftr], [Z.lor] and [Z.land],
    which agree with Python's two's-complement reading of negative numbers.
    A raised exception is the [Raise] case of [result]; the wall clock
    [int(time() * 1000)] is an explicit argument of the two functions that
    read it. *)

From Stdlib Require Import ZArith Lia List Bool Sorted.
Import ListNotations.

Local Open Scope Z_scope.

Declare Scope py_scope.
Infix "<<" := Z.shiftl (at level 32, left associativity) : py_scope.
Infix ">>" := Z.shiftr (at level 32, left associativity) : py_scope.
Infix ".&" := Z.land (at level 33, left associativity) : py_scope.
Infix ".|" := Z.lor (at level 34, left associativity) : py_scope.
Local Open Scope py_scope.

(** ** Module constants *)

(** [MAX_TS = 0b11111111111111111111111111111111111111111]: forty-one ones,
    written here in hexadecimal (one [1] and ten [F]s). *)
Definition MAX_TS : Z := 0x1FFFFFFFFFF.
Definition MAX_DATACENTER : Z := 31.
Definition MAX_INSTANCE : Z := 31.
Definition MAX_SEQ : Z := 4095.

(** ** Exceptions

    The two exception classes of the program.  The message of a [ValueError]
    is kept as the place that raised it. *)

Inductive bound_check : Set :=
| EpochCheck
| TimestampCheck
| DatacenterCheck
| InstanceCheck
| SequenceCheck.

Inductive exn : Set :=
| ValueError (which : bound_check)
| OverflowError.

Inductive result (A : Type) : Type :=
| Ok (a : A)
| Raise (e : exn).

Arguments Ok {A} a.
Arguments Raise {A} e.

Definition bind {A B : Type} (r : result A) (k : A -> result B) : result B :=
  match r with
  | Ok a => k a
  | Raise e => Raise e
  end.

Notation "r ;; k" := (bind r (fun _ => k))
  (at level 61, right associativity).

(** [if cond: raise e] *)
Definition raise_if (cond : bool) (e : exn) : result unit :=
  if cond then Raise e else Ok tt.

(** Python's chained comparison [lo <= x <= hi]. *)
Definition between (lo x hi : Z) : bool := (lo <=? x) && (x <=? hi).

(** ** class Snowflake *)

Module Snowflake.

(** The frozen dataclass: five integer fields, never mutated. *)
Record t : Set := mk {
  timestamp : Z;
  datacenter : Z;
  instance : Z;
  epoch : Z;
  seq : Z
}.

Definition __post_init__ (self : t) : result unit :=
  raise_if (epoch self <? 0) (ValueError EpochCheck) ;;
  raise_if (negb (between 0 (timestamp self) MAX_TS)) (ValueError TimestampCheck) ;;
  raise_if (negb (between 0 (datacenter self) MAX_DATACENTER)) (ValueError DatacenterCheck) ;;
  raise_if (negb (between 0 (instance self) MAX_INSTANCE)) (ValueError InstanceCheck) ;;
  raise_if (negb (between 0 (seq self) MAX_SEQ)) (ValueError SequenceCheck).

(** The generated constructor [Snowflake(timestamp, datacenter, instance,
    epoch, seq)]: store the fields, then run [__post_init__]. *)
Definition new (timestamp datacenter instance epoch seq : Z) : result t :=
  let self := mk timestamp datacenter instance epoch seq in
  __post_init__ self ;; Ok self.

Definition parse (snowflake epoch : Z) : result t :=
  new (snowflake >> 22)
      ((snowflake >> 17) .& MAX_DATACENTER)
      ((snowflake >> 12) .& MAX_INSTANCE)
      epoch
      (snowflake .& MAX_SEQ).

Definition value (self : t) : Z :=
  (timestamp self << 22) .| (datacenter self << 17) .| (instance self << 12) .| seq self.

Definition milliseconds (self : t) : Z := timestamp self + epoch self.

Definition __int__ (self : t) : Z := value self.

End Snowflake.

(** ** class SnowflakeGenerator *)

Module SnowflakeGenerator.

(** The four private attributes of a generator. *)
Record t : Set := mk {
  _epoch : Z;
  _ts : Z;
  _inf : Z;
  _seq : Z
}.

(** [timestamp or current]: [None] and [0] are both falsy. *)
Definition or_current (timestamp : option Z) (current : Z) : Z :=
  match timestamp with
  | None => current
  | Some ts => if ts =? 0 then current else ts
  end.

(** [current] is the clock reading [int(time() * 1000)]. *)
Definition __init__ (datacenter instance seq epoch : Z) (timestamp : option Z)
    (current : Z) : result t :=
  raise_if (current - epoch >=? MAX_TS) OverflowError ;;
  let timestamp := or_current timestamp current in
  raise_if ((timestamp <? 0) || (timestamp >? current)) (ValueError TimestampCheck) ;;
  raise_if ((epoch <? 0) || (epoch >? current)) (ValueError EpochCheck) ;;
  raise_if ((datacenter <? 0) || (datacenter >? MAX_DATACENTER)) (ValueError DatacenterCheck) ;;
  raise_if ((instance <? 0) || (instance >? MAX_INSTANCE)) (ValueError InstanceCheck) ;;
  raise_if ((seq <? 0) || (seq >? MAX_SEQ)) (ValueError SequenceCheck) ;;
  Ok {| _epoch := epoch;
        _ts := timestamp - epoch;
        _inf := (datacenter << 17) .| (instance << 12);
        _seq := seq |}.

Definition from_snowflake (sf : Snowflake.t) (current : Z) : result t :=
  __init__ (Snowflake.datacenter sf) (Snowflake.instance sf) (Snowflake.seq sf)
           (Snowflake.epoch sf) (Some (Snowflake.timestamp sf)) current.

Definition set_seq (self : t) (v : Z) : t :=
  {| _epoch := _epoch self; _ts := _ts self; _inf := _inf self; _seq := v |}.

Definition set_ts (self : t) (v : Z) : t :=
  {| _epoch := _epoch self; _ts := v; _inf := _inf self; _seq := _seq self |}.

(** The tail shared by the two branches that mint an identifier. *)
Definition mint (self : t) (current : Z) : result (option Z) * t :=
  let self := set_ts self current in
  (Ok (Some ((_ts self << 22) .| _inf self .| _seq self)), self).

(** [now] is the clock reading [int(time() * 1000)].  The outcome is the
    value returned ([None] is the sentinel) or the exception raised,
    together with the generator's state after the call. *)
Definition __next__ (now : Z) (self : t) : result (option Z) * t :=
  let current := now - _epoch self in
  if current >=? MAX_TS then (Raise OverflowError, self)
  else if _ts self =? current then
    if _seq self =? MAX_SEQ then (Ok None, self)
    else mint (set_seq self (_seq self + 1)) current
  else if _ts self >? current then (Ok None, self)
  else mint (set_seq self 0) current.

(** A caller that calls [next] once per clock reading, in order: the
    outcomes and the final state. *)
Fixpoint run (nows : list Z) (self : t) : list (result (option Z)) * t :=
  match nows with
  | [] => ([], self)
  | now :: rest =>
      let (r, self) := __next__ now self in
      let (rs, self) := run rest self in
      (r :: rs, self)
  end.

(** The states a program can hold: built by [__init__], then advanced by
    [__next__]. *)
Inductive reachable : t -> Prop :=
| reach_init datacenter instance seq epoch timestamp current g :
    __init__ datacenter instance seq epoch timestamp current = Ok g ->
    reachable g
| reach_next now g :
    reachable g ->
    reachable (snd (__next__ now g)).

End SnowflakeGenerator.


(** ** Predicates used in the statements *)

(** All five fields of an identifier lie within the bounds that
    [__post_init__] checks. *)
Definition in_bounds (i : Snowflake.t) : Prop :=
  0 <= Snowflake.epoch i
  /\ 0 <= Snowflake.timestamp i <= MAX_TS
  /\ 0 <= Snowflake.datacenter i <= MAX_DATACENTER
  /\ 0 <= Snowflake.instance i <= MAX_INSTANCE
  /\ 0 <= Snowflake.seq i <= MAX_SEQ.

(** The same test as a boolean, for evaluation. *)
Definition in_boundsb (i : Snowflake.t) : bool :=
  (0 <=? Snowflake.epoch i)
  && between 0 (Snowflake.timestamp i) MAX_TS
  && between 0 (Snowflake.datacenter i) MAX_DATACENTER
  && between 0 (Snowflake.instance i) MAX_INSTANCE
  && between 0 (Snowflake.seq i) MAX_SEQ.

(** The call raised a [ValueError], whatever its message. *)
Definition raises_ValueError {A : Type} (r : result A) : Prop :=
  exists which, r = Raise (ValueError which).

(** What [__init__] establishes and [__next__] keeps. *)
Definition well_formed (g : SnowflakeGenerator.t) : Prop :=
  SnowflakeGenerator._ts g < MAX_TS
  /\ 0 <= SnowflakeGenerator._seq g <= MAX_SEQ
  /\ 0 <= SnowflakeGenerator._epoch g
  /\ exists datacenter instance,
       0 <= datacenter <= MAX_DATACENTER
       /\ 0 <= instance <= MAX_INSTANCE
       /\ SnowflakeGenerator._inf g = (datacenter << 17) .| (instance << 12).

(** ** The program's entry point and what a caller observes *)

(** [gen = SnowflakeGenerator(1, 0); print(next(gen))]: the value printed,
    given the clock reading of the constructor and that of the call. *)
Definition main (current now : Z) : result (option Z) :=
  bind (SnowflakeGenerator.__init__ 1 0 0 0 None current)
       (fun gen => fst (SnowflakeGenerator.__next__ now gen)).

(** The return expression of [__next__] at the attributes a generator
    holds: the identifier it returned last, once it has returned one. *)
Definition last_id (g : SnowflakeGenerator.t) : Z :=
  (SnowflakeGenerator._ts g << 22) .| SnowflakeGenerator._inf g
  .| SnowflakeGenerator._seq g.

(** The identifiers among the outcomes of a series of calls, in order. *)
Fixpoint minted (outcomes : list (result (option Z))) : list Z :=
  match outcomes with
  | [] => []
  | Ok (Some id) :: rest => id :: minted rest
  | _ :: rest => minted rest
  end.

(** Lexicographic order on (timestamp, datacenter, instance, seq). *)
Definition fields_lt (i j : Snowflake.t) : Prop :=
  Snowflake.timestamp i < Snowflake.timestamp j
  \/ (Snowflake.timestamp i = Snowflake.timestamp j
      /\ (Snowflake.datacenter i < Snowflake.datacenter j
          \/ (Snowflake.datacenter i = Snowflake.datacenter j
              /\ (Snowflake.instance i < Snowflake.instance j
                  \/ (Snowflake.instance i = Snowflake.instance j
                      /\ Snowflake.seq i < Snowflake.seq j))))).

(** * Properties *)

(** ** Bits of shifted and masked integers *)

Lemma MAX_TS_ones : MAX_TS = Z.ones 41.
Proof. reflexivity. Qed.

Lemma MAX_DATACENTER_ones : MAX_DATACENTER = Z.ones 5.
Proof. reflexivity. Qed.

Lemma MAX_INSTANCE_ones : MAX_INSTANCE = Z.ones 5.
Proof. reflexivity. Qed.

Lemma MAX_SEQ_ones : MAX_SEQ = Z.ones 12.
Proof. reflexivity. Qed.

Lemma testbit_high (a k n : Z) :
  0 <= a < 2 ^ k -> 0 <= k <= n -> Z.testbit a n = false.
Proof.
  intros Ha Hk.
  rewrite <- (Z.mod_small a (2 ^ k)) by exact Ha.
  apply Z.mod_pow2_bits_high; lia.
Qed.

Lemma testbit_shiftl (a k n : Z) :
  0 <= k -> 0 <= n ->
  Z.testbit (a << k) n = if n <? k then false else Z.testbit a (n - k).
Proof.
  intros Hk Hn. rewrite Z.shiftl_spec by exact Hn.
  destruct (Z.ltb_spec n k); [apply Z.testbit_neg_r; lia | reflexivity].
Qed.

Lemma testbit_mask (a k n : Z) :
  0 <= k -> 0 <= n ->
  Z.testbit (a .& Z.ones k) n = if n <? k then Z.testbit a n else false.
Proof.
  intros Hk Hn. rewrite Z.land_spec, Z.testbit_ones_nonneg by lia.
  destruct (Z.ltb_spec n k); [apply andb_true_r | apply andb_false_r].
Qed.

Lemma mask_range (a k : Z) : 0 <= k -> 0 <= a .& Z.ones k <= Z.ones k.
Proof.
  intros Hk. rewrite Z.land_ones, Z.ones_equiv by exact Hk.
  pose proof (Z.mod_pos_bound a (2 ^ k)) as H.
  assert (0 < 2 ^ k) by (apply Z.pow_pos_nonneg; lia). lia.
Qed.

(** Bit [n] of each side of the goal [a = b], by cases on where [n] lies
    among the field boundaries. *)
Ltac split_bit :=
  repeat match goal with
         | |- context [?a <? ?k] => destruct (Z.ltb_spec a k); try lia
         end.

Ltac read_bit :=
  repeat first
    [ rewrite Z.lor_spec
    | rewrite testbit_mask by lia
    | rewrite Z.shiftr_spec by lia
    | rewrite testbit_shiftl by lia ].

Ltac bitwise n Hn :=
  apply Z.bits_inj'; intros n Hn; read_bit; split_bit; read_bit; split_bit.

Ltac same_bit :=
  rewrite ?orb_false_r, ?orb_false_l; try reflexivity; f_equal; lia.

Section Packing.

Variables ts dc inst sq : Z.
Hypothesis Hdc : 0 <= dc <= MAX_DATACENTER.
Hypothesis Hinst : 0 <= inst <= MAX_INSTANCE.
Hypothesis Hsq : 0 <= sq <= MAX_SEQ.

Let dc_high n : 5 <= n -> Z.testbit dc n = false.
Proof. intros; apply (testbit_high dc 5); unfold MAX_DATACENTER in Hdc; lia. Qed.

Let inst_high n : 5 <= n -> Z.testbit inst n = false.
Proof. intros; apply (testbit_high inst 5); unfold MAX_INSTANCE in Hinst; lia. Qed.

Let sq_high n : 12 <= n -> Z.testbit sq n = false.
Proof. intros; apply (testbit_high sq 12); unfold MAX_SEQ in Hsq; lia. Qed.

Ltac drop_high :=
  rewrite ?dc_high, ?inst_high, ?sq_high by lia.

Lemma packed_timestamp :
  ((ts << 22) .| (dc << 17) .| (inst << 12) .| sq) >> 22 = ts.
Proof. bitwise n Hn; drop_high; same_bit. Qed.

Lemma packed_datacenter :
  (((ts << 22) .| (dc << 17) .| (inst << 12) .| sq) >> 17) .& MAX_DATACENTER = dc.
Proof. rewrite MAX_DATACENTER_ones. bitwise n Hn; drop_high; same_bit. Qed.

Lemma packed_instance :
  (((ts << 22) .| (dc << 17) .| (inst << 12) .| sq) >> 12) .& MAX_INSTANCE = inst.
Proof. rewrite MAX_INSTANCE_ones. bitwise n Hn; drop_high; same_bit. Qed.

Lemma packed_seq :
  ((ts << 22) .| (dc << 17) .| (inst << 12) .| sq) .& MAX_SEQ = sq.
Proof. rewrite MAX_SEQ_ones. bitwise n Hn; drop_high; same_bit. Qed.

(** The generator ORs the precomputed instance field in one piece. *)
Lemma lor_instance_field :
  (ts << 22) .| ((dc << 17) .| (inst << 12)) .| sq
  = (ts << 22) .| (dc << 17) .| (inst << 12) .| sq.
Proof. now rewrite (Z.lor_assoc (ts << 22)). Qed.

End Packing.

Lemma unpacked_fields (x : Z) :
  ((x >> 22) << 22)
  .| (((x >> 17) .& MAX_DATACENTER) << 17)
  .| (((x >> 12) .& MAX_INSTANCE) << 12)
  .| (x .& MAX_SEQ) = x.
Proof.
  rewrite MAX_DATACENTER_ones, MAX_INSTANCE_ones, MAX_SEQ_ones.
  bitwise n Hn; same_bit.
Qed.

(** ** Identifier construction *)

Ltac unfold_checks :=
  unfold Snowflake.parse, Snowflake.new, Snowflake.__post_init__,
    raise_if, between, bind; cbn [Snowflake.epoch Snowflake.timestamp
    Snowflake.datacenter Snowflake.instance Snowflake.seq].

(** Decides every comparison of the goal, closing the impossible cases. *)
Ltac compare_all :=
  rewrite ?Z.gtb_ltb, ?Z.geb_leb;
  repeat (match goal with
          | |- context [?a <? ?b] => destruct (Z.ltb_spec a b)
          | |- context [?a <=? ?b] => destruct (Z.leb_spec a b)
          | |- context [?a =? ?b] => destruct (Z.eqb_spec a b)
          end;
          cbn [negb andb orb]; cbv iota; try lia).

Lemma in_boundsb_spec (i : Snowflake.t) : in_boundsb i = true <-> in_bounds i.
Proof.
  unfold in_boundsb, in_bounds, between.
  rewrite !andb_true_iff, !Z.leb_le. tauto.
Qed.

Lemma post_init_ok (i : Snowflake.t) :
  in_bounds i -> Snowflake.__post_init__ i = Ok tt.
Proof.
  unfold in_bounds; intros H; unfold_checks; compare_all; reflexivity.
Qed.

Lemma post_init_raises (i : Snowflake.t) :
  ~ in_bounds i -> raises_ValueError (Snowflake.__post_init__ i).
Proof.
  unfold in_bounds, raises_ValueError; intros H; unfold_checks.
  compare_all; eauto.
Qed.

Lemma new_ok (ts dc inst ep sq : Z) :
  in_bounds (Snowflake.mk ts dc inst ep sq) ->
  Snowflake.new ts dc inst ep sq = Ok (Snowflake.mk ts dc inst ep sq).
Proof.
  intros H. unfold Snowflake.new. cbv zeta.
  now rewrite (post_init_ok _ H).
Qed.

Lemma new_raises (ts dc inst ep sq : Z) :
  ~ in_bounds (Snowflake.mk ts dc inst ep sq) ->
  raises_ValueError (Snowflake.new ts dc inst ep sq).
Proof.
  intros H. unfold Snowflake.new. cbv zeta.
  destruct (post_init_raises _ H) as [c Hc]. rewrite Hc. now exists c.
Qed.

Lemma in_bounds_dec (i : Snowflake.t) : in_bounds i \/ ~ in_bounds i.
Proof. unfold in_bounds. lia. Qed.

Lemma new_inv (ts dc inst ep sq : Z) (i : Snowflake.t) :
  Snowflake.new ts dc inst ep sq = Ok i ->
  i = Snowflake.mk ts dc inst ep sq /\ in_bounds i.
Proof.
  intros H. destruct (in_bounds_dec (Snowflake.mk ts dc inst ep sq)) as [Hb | Hb].
  - rewrite (new_ok _ _ _ _ _ Hb) in H. injection H as <-. now split.
  - destruct (new_raises _ _ _ _ _ Hb) as [c Hc]. congruence.
Qed.

Lemma shiftr_22_range (x : Z) : 0 <= x >> 22 <= MAX_TS <-> 0 <= x < 2 ^ 63.
Proof.
  rewrite Z.shiftr_div_pow2 by lia. unfold MAX_TS.
  change (2 ^ 22) with 4194304. change (2 ^ 63) with 9223372036854775808.
  pose proof (Z.div_mod x 4194304) as E.
  pose proof (Z.mod_pos_bound x 4194304) as B. lia.
Qed.

(** The three masked fields pass their checks whatever the integer parsed;
    the timestamp, shifted but not masked, passes for 63-bit integers. *)
Lemma parsed_in_bounds (raw ep : Z) :
  in_bounds (Snowflake.mk (raw >> 22) ((raw >> 17) .& MAX_DATACENTER)
               ((raw >> 12) .& MAX_INSTANCE) ep (raw .& MAX_SEQ))
  <-> 0 <= ep /\ 0 <= raw < 2 ^ 63.
Proof.
  unfold in_bounds; cbn [Snowflake.epoch Snowflake.timestamp
    Snowflake.datacenter Snowflake.instance Snowflake.seq].
  rewrite shiftr_22_range.
  pose proof (mask_range (raw >> 17) 5). pose proof (mask_range (raw >> 12) 5).
  pose proof (mask_range raw 12).
  rewrite MAX_DATACENTER_ones, MAX_INSTANCE_ones, MAX_SEQ_ones. lia.
Qed.

(** C4. Constructing an identifier raises [ValueError] exactly when some
    field is out of bounds, and otherwise returns the record of the five
    fields given; a timestamp of [MAX_TS + 1], a datacenter of 32, an
    instance of 32, a sequence of 4096 and an epoch of -1 each make it
    raise, whatever the other fields. *)
Theorem construction_checks_bounds :
  (forall ts dc inst ep sq,
      raises_ValueError (Snowflake.new ts dc inst ep sq)
      <-> ~ in_bounds (Snowflake.mk ts dc inst ep sq))
  /\ (forall ts dc inst ep sq,
      Snowflake.new ts dc inst ep sq = Ok (Snowflake.mk ts dc inst ep sq)
      <-> in_bounds (Snowflake.mk ts dc inst ep sq))
  /\ (forall dc inst ep sq, raises_ValueError (Snowflake.new (MAX_TS + 1) dc inst ep sq))
  /\ (forall ts inst ep sq, raises_ValueError (Snowflake.new ts 32 inst ep sq))
  /\ (forall ts dc ep sq, raises_ValueError (Snowflake.new ts dc 32 ep sq))
  /\ (forall ts dc inst ep, raises_ValueError (Snowflake.new ts dc inst ep 4096))
  /\ (forall ts dc inst sq, raises_ValueError (Snowflake.new ts dc inst (-1) sq)).
Proof.
  assert (Hraise : forall ts dc inst ep sq,
      raises_ValueError (Snowflake.new ts dc inst ep sq)
      <-> ~ in_bounds (Snowflake.mk ts dc inst ep sq)).
  { intros; split.
    - intros [c Hc] Hb. rewrite (new_ok _ _ _ _ _ Hb) in Hc. discriminate.
    - apply new_raises. }
  split; [exact Hraise | split].
  { intros; split.
    - intros H. now destruct (new_inv _ _ _ _ _ _ H) as [_ Hb].
    - apply new_ok. }
  repeat split; intros; apply Hraise; unfold in_bounds;
    cbn [Snowflake.epoch Snowflake.timestamp Snowflake.datacenter
           Snowflake.instance Snowflake.seq];
    unfold MAX_DATACENTER, MAX_INSTANCE, MAX_SEQ; lia.
Qed.

(** C3, as the code has it. [MAX_TS] is forty-one ones, 2199023255551: a
    timestamp in 0..2199023255551 never fails the timestamp check, and the
    identifier is built when the other fields are in bounds too; the bound is
    tight, the next timestamp fails that check. *)
Theorem timestamp_bound (ts : Z) :
  0 <= ts <= 2199023255551 ->
  MAX_TS = 2 ^ 41 - 1
  /\ between 0 ts MAX_TS = true
  /\ (forall dc inst ep sq,
        Snowflake.new ts dc inst ep sq <> Raise (ValueError TimestampCheck))
  /\ (forall dc inst ep sq,
        0 <= ep -> 0 <= dc <= 31 -> 0 <= inst <= 31 -> 0 <= sq <= 4095 ->
        Snowflake.new ts dc inst ep sq = Ok (Snowflake.mk ts dc inst ep sq))
  /\ Snowflake.new (2199023255551 + 1) 0 0 0 0 = Raise (ValueError TimestampCheck).
Proof.
  intros Hts. split; [reflexivity | split; [| split; [| split]]].
  - unfold between, MAX_TS. apply andb_true_iff. rewrite !Z.leb_le. lia.
  - intros. unfold_checks. unfold MAX_TS. compare_all; discriminate.
  - intros. apply new_ok. unfold in_bounds, MAX_TS, MAX_DATACENTER, MAX_INSTANCE, MAX_SEQ.
    cbn. lia.
  - reflexivity.
Qed.

Lemma timestamp_bound_witness :
  0 <= 2199023255551 <= 2199023255551
  /\ Snowflake.new 2199023255551 1 2 0 3 = Ok (Snowflake.mk 2199023255551 1 2 0 3).
Proof.
  split; [lia |].
  apply (timestamp_bound 2199023255551); lia.
Defined.

(** C3 as the specification words it fails: 8796093022207 is not [MAX_TS],
    and an identifier with that timestamp is refused by the timestamp
    check. *)
Lemma timestamp_43_bits_refused :
  MAX_TS <> 8796093022207
  /\ 0 <= 8796093022207 <= 8796093022207
  /\ Snowflake.new 8796093022207 0 0 0 0 = Raise (ValueError TimestampCheck).
Proof. split; [discriminate | split; [lia | reflexivity]]. Qed.

(** ** Decoding and encoding *)

(** C2, as the code has it. [parse] returns an identifier for every integer
    in 0..2^63-1 and every epoch that is not negative, and raises
    [ValueError] in every other case: a negative epoch, a negative integer,
    or an integer from 2^63 on, whose timestamp [raw >> 22] is shifted but
    not masked and exceeds [MAX_TS]. *)
Theorem parse_succeeds_below_2_63 (raw ep : Z) :
  (0 <= ep -> 0 <= raw < 2 ^ 63 ->
   Snowflake.parse raw ep
   = Ok (Snowflake.mk (raw >> 22) ((raw >> 17) .& MAX_DATACENTER)
           ((raw >> 12) .& MAX_INSTANCE) ep (raw .& MAX_SEQ)))
  /\ (ep < 0 \/ raw < 0 \/ 2 ^ 63 <= raw ->
      raises_ValueError (Snowflake.parse raw ep))
  /\ (0 <= ep -> 2 ^ 63 <= raw ->
      Snowflake.parse raw ep = Raise (ValueError TimestampCheck)).
Proof.
  pose proof (parsed_in_bounds raw ep) as Hb.
  split; [| split].
  - intros Hep Hraw. apply new_ok, Hb. now split.
  - intros H. apply new_raises. rewrite Hb. lia.
  - intros Hep Hraw.
    assert (Hts : ~ 0 <= raw >> 22 <= MAX_TS) by (rewrite shiftr_22_range; lia).
    unfold_checks. compare_all; reflexivity.
Qed.

Lemma parse_succeeds_below_2_63_witness :
  Snowflake.parse 517815304069123 0 = Ok (Snowflake.mk 123456789 1 2 0 3).
Proof.
  apply (proj1 (parse_succeeds_below_2_63 517815304069123 0)).
  - lia.
  - split; [lia | reflexivity].
Defined.

(** C2 as the specification words it fails: 2^63 is a 64-bit unsigned
    integer, the epoch 0 is not negative, and [parse] raises. *)
Lemma parse_2_63_raises :
  0 <= 9223372036854775808 < 2 ^ 64
  /\ Snowflake.parse 9223372036854775808 0 = Raise (ValueError TimestampCheck).
Proof. split; [split; [lia | reflexivity] | reflexivity]. Qed.

(** C1, as the code has it. Decoding the value of an identifier whose five
    fields are in bounds, with its epoch, gives that identifier back; and
    every integer in 0..2^63-1 decodes, with any epoch that is not negative,
    to an identifier whose value is that integer. *)
Theorem round_trip :
  (forall i : Snowflake.t,
      in_bounds i ->
      Snowflake.parse (Snowflake.value i) (Snowflake.epoch i) = Ok i)
  /\ (forall x e : Z,
      0 <= x < 2 ^ 63 -> 0 <= e ->
      exists i, Snowflake.parse x e = Ok i
                /\ Snowflake.epoch i = e
                /\ Snowflake.value i = x).
Proof.
  split.
  - intros [ts dc inst ep sq] Hb.
    destruct Hb as (Hep & Hts & Hdc & Hinst & Hsq); cbn in Hep, Hts, Hdc, Hinst, Hsq.
    unfold Snowflake.parse, Snowflake.value; cbn [Snowflake.epoch Snowflake.timestamp
      Snowflake.datacenter Snowflake.instance Snowflake.seq].
    rewrite packed_timestamp, packed_datacenter, packed_instance, packed_seq
      by assumption.
    apply new_ok. repeat split; cbn; lia.
  - intros x e Hx He. eexists. split; [| split].
    + apply (proj1 (parse_succeeds_below_2_63 x e)); assumption.
    + reflexivity.
    + unfold Snowflake.value; cbn [Snowflake.timestamp Snowflake.datacenter
        Snowflake.instance Snowflake.seq].
      exact (unpacked_fields x).
Qed.

Lemma round_trip_witness :
  Snowflake.parse (Snowflake.value (Snowflake.mk 123456789 1 2 0 3)) 0
  = Ok (Snowflake.mk 123456789 1 2 0 3)
  /\ exists i, Snowflake.parse 517815304069123 0 = Ok i
               /\ Snowflake.epoch i = 0
               /\ Snowflake.value i = 517815304069123.
Proof.
  split.
  - apply (proj1 round_trip (Snowflake.mk 123456789 1 2 0 3)).
    unfold in_bounds, MAX_TS, MAX_DATACENTER, MAX_INSTANCE, MAX_SEQ; cbn; lia.
  - apply (proj2 round_trip); [split; [lia | reflexivity] | lia].
Defined.

(** C1 as the specification words it fails on its second half: 2^63 is a
    64-bit unsigned integer and decoding it with epoch 0 raises, so no
    identifier is there to encode. *)
Lemma round_trip_fails_at_2_63 :
  0 <= 9223372036854775808 < 2 ^ 64
  /\ ~ exists i, Snowflake.parse 9223372036854775808 0 = Ok i
                 /\ Snowflake.value i = 9223372036854775808.
Proof.
  split; [split; [lia | reflexivity] |].
  intros [i [H _]]. discriminate H.
Qed.

(** ** The generator: one call *)

Import SnowflakeGenerator.

Ltac unfold_next :=
  unfold __next__, mint, set_seq, set_ts; cbv zeta; cbn [_epoch _ts _inf _seq].

Lemma next_overflow (now : Z) (g : t) :
  now - _epoch g >= MAX_TS -> __next__ now g = (Raise OverflowError, g).
Proof. intros H. unfold_next. compare_all; reflexivity. Qed.

Lemma next_same_ms (now : Z) (g : t) :
  now - _epoch g = _ts g -> _ts g < MAX_TS -> _seq g <> MAX_SEQ ->
  __next__ now g
  = (Ok (Some ((_ts g << 22) .| _inf g .| (_seq g + 1))), set_seq g (_seq g + 1)).
Proof.
  intros Hnow Hts Hsq. unfold_next. rewrite Hnow. compare_all; reflexivity.
Qed.

Lemma next_exhausted (now : Z) (g : t) :
  now - _epoch g = _ts g -> _ts g < MAX_TS -> _seq g = MAX_SEQ ->
  __next__ now g = (Ok None, g).
Proof.
  intros Hnow Hts Hsq. unfold_next. rewrite Hnow. compare_all; reflexivity.
Qed.

Lemma next_backward (now : Z) (g : t) :
  now - _epoch g < _ts g -> _ts g <= MAX_TS ->
  __next__ now g = (Ok None, g).
Proof. intros Hnow Hts. unfold_next. compare_all; reflexivity. Qed.

Lemma next_advance (now : Z) (g : t) :
  _ts g < now - _epoch g < MAX_TS ->
  __next__ now g
  = (Ok (Some (((now - _epoch g) << 22) .| _inf g .| 0)),
     set_ts (set_seq g 0) (now - _epoch g)).
Proof. intros Hnow. unfold_next. compare_all; reflexivity. Qed.

(** The five ways a call can go, by the clock reading. *)
Lemma next_cases (now : Z) (g : t) :
  now - _epoch g >= MAX_TS
  \/ (now - _epoch g = _ts g /\ _ts g < MAX_TS /\ _seq g <> MAX_SEQ)
  \/ (now - _epoch g = _ts g /\ _ts g < MAX_TS /\ _seq g = MAX_SEQ)
  \/ (now - _epoch g < _ts g /\ now - _epoch g < MAX_TS)
  \/ _ts g < now - _epoch g < MAX_TS.
Proof. lia. Qed.

Lemma next_ts_monotone (now : Z) (g : t) :
  _ts g <= _ts (snd (__next__ now g)).
Proof.
  unfold_next. compare_all; cbn [snd _ts]; lia.
Qed.

Lemma next_keeps_epoch_inf (now : Z) (g : t) :
  _epoch (snd (__next__ now g)) = _epoch g
  /\ _inf (snd (__next__ now g)) = _inf g.
Proof.
  unfold_next. compare_all; cbn [snd _epoch _inf]; split; reflexivity.
Qed.

(** ** The generator: what every reachable state satisfies *)

Ltac unfold_init :=
  unfold __init__, raise_if, bind; cbv zeta.

Lemma init_inv (dc inst sq ep : Z) (timestamp : option Z) (current : Z) (g : t) :
  __init__ dc inst sq ep timestamp current = Ok g ->
  g = {| _epoch := ep;
         _ts := or_current timestamp current - ep;
         _inf := (dc << 17) .| (inst << 12);
         _seq := sq |}
  /\ current - ep < MAX_TS
  /\ 0 <= or_current timestamp current <= current
  /\ 0 <= ep <= current
  /\ 0 <= dc <= MAX_DATACENTER
  /\ 0 <= inst <= MAX_INSTANCE
  /\ 0 <= sq <= MAX_SEQ.
Proof.
  unfold_init. generalize (or_current timestamp current) as ts; intros ts.
  compare_all; intros Hok; try discriminate Hok.
  injection Hok as <-. repeat split; lia.
Qed.

Lemma init_well_formed (dc inst sq ep : Z) (timestamp : option Z) (current : Z) (g : t) :
  __init__ dc inst sq ep timestamp current = Ok g -> well_formed g.
Proof.
  intros H. apply init_inv in H.
  destruct H as (-> & Hov & Hts & Hep & Hdc & Hinst & Hsq).
  unfold well_formed; cbn [_epoch _ts _inf _seq].
  repeat split; try lia. exists dc, inst. repeat split; lia.
Qed.

Lemma next_well_formed (now : Z) (g : t) :
  well_formed g -> well_formed (snd (__next__ now g)).
Proof.
  unfold well_formed. intros (Hts & Hsq & Hep & Hinf).
  unfold_next. unfold MAX_SEQ in *.
  compare_all; cbn [snd _epoch _ts _inf _seq]; repeat split; try lia; exact Hinf.
Qed.

Lemma reachable_well_formed (g : t) : reachable g -> well_formed g.
Proof.
  induction 1 as [dc inst sq ep timestamp current g H | now g _ IH].
  - exact (init_well_formed _ _ _ _ _ _ _ H).
  - exact (next_well_formed now g IH).
Qed.

(** ** The generator: a series of calls *)

Lemma run_cons (now : Z) (rest : list Z) (g : t) :
  run (now :: rest) g
  = (fst (__next__ now g) :: fst (run rest (snd (__next__ now g))),
     snd (run rest (snd (__next__ now g)))).
Proof.
  cbn [run]. destruct (__next__ now g) as [r g1]. cbn [fst snd].
  now destruct (run rest g1).
Qed.

Lemma run_reachable (nows : list Z) (g : t) :
  reachable g -> reachable (snd (run nows g)).
Proof.
  revert g. induction nows as [| now rest IH]; intros g Hg.
  - exact Hg.
  - rewrite run_cons. cbn [snd]. apply IH. now apply reach_next.
Qed.

Lemma run_ts_monotone (nows : list Z) (g : t) :
  _ts g <= _ts (snd (run nows g)).
Proof.
  revert g. induction nows as [| now rest IH]; intros g.
  - cbn. lia.
  - rewrite run_cons. cbn [snd].
    pose proof (next_ts_monotone now g). specialize (IH (snd (__next__ now g))). lia.
Qed.

(** The outcome of call number [k] is that of one call in the state the
    first [k] calls leave. *)
Lemma run_nth (nows : list Z) (g : t) (k : nat) (now : Z) :
  nth_error nows k = Some now ->
  nth_error (fst (run nows g)) k
  = Some (fst (__next__ now (snd (run (firstn k nows) g)))).
Proof.
  revert g k. induction nows as [| n rest IH]; intros g k H.
  - destruct k; discriminate H.
  - rewrite run_cons. destruct k as [| k].
    + injection H as ->. reflexivity.
    + cbn [fst nth_error firstn]. rewrite run_cons. cbn [snd].
      apply IH. exact H.
Qed.

Lemma nth_repeat (now : Z) (n k : nat) :
  (k < n)%nat -> nth_error (repeat now n) k = Some now.
Proof.
  revert k. induction n as [| n IH]; intros k H; [lia |].
  destruct k; [reflexivity | apply IH; lia].
Qed.

Lemma firstn_of_repeat (now : Z) (n k : nat) :
  (k <= n)%nat -> firstn k (repeat now n) = repeat now k.
Proof.
  revert k. induction n as [| n IH]; intros k H.
  - now replace k with 0%nat by lia.
  - destruct k; [reflexivity |]. cbn. f_equal. apply IH. lia.
Qed.

Lemma set_seq_same (g : t) : set_seq g (_seq g) = g.
Proof. now destruct g. Qed.

(** [k] calls within the millisecond of [_ts], with room left in the
    sequence: only [_seq] moves, by [k]. *)
Lemma same_ms_state (now : Z) (k : nat) (g : t) :
  now - _epoch g = _ts g -> _ts g < MAX_TS ->
  _seq g + Z.of_nat k <= MAX_SEQ ->
  snd (run (repeat now k) g) = set_seq g (_seq g + Z.of_nat k).
Proof.
  revert g. induction k as [| k IH]; intros g Hnow Hts Hsq.
  - cbn. now rewrite Z.add_0_r, set_seq_same.
  - cbn [repeat]. rewrite run_cons. cbn [snd].
    rewrite next_same_ms by lia. cbn [snd].
    rewrite IH by (cbn [set_seq _epoch _ts _seq]; lia).
    unfold set_seq; cbn [_epoch _ts _inf _seq]. f_equal. lia.
Qed.

(** The identifier minted from a well-formed state decodes to the
    timestamp and the sequence it was minted from. *)
Lemma minted_fields (g : t) (ts sq : Z) :
  well_formed g -> 0 <= sq <= MAX_SEQ ->
  ((ts << 22) .| _inf g .| sq) >> 22 = ts
  /\ ((ts << 22) .| _inf g .| sq) .& MAX_SEQ = sq.
Proof.
  intros (_ & _ & _ & dc & inst & Hdc & Hinst & ->) Hsq.
  rewrite lor_instance_field.
  split; [now apply packed_timestamp | now apply packed_seq].
Qed.

(** ** The generator: claims *)

(** C5. While the clock stays in the millisecond of [_ts] and the sequence
    is below [MAX_SEQ] at each of [N] calls in a row, call number [k]
    (counted from 0) finds the sequence at [_seq g + k], raises it by
    exactly one, and returns an identifier whose sequence part is
    [_seq g + k + 1] and whose timestamp part is the unchanged [_ts g]. *)
Theorem same_millisecond_sequence (g : t) (now : Z) (N k : nat) :
  reachable g ->
  now - _epoch g = _ts g ->
  (N <= 4096)%nat ->
  _seq g + Z.of_nat N <= MAX_SEQ ->
  (k < N)%nat ->
  let before := snd (run (repeat now k) g) in
  let id := (_ts g << 22) .| _inf g .| (_seq g + Z.of_nat k + 1) in
  _seq before = _seq g + Z.of_nat k
  /\ __next__ now before = (Ok (Some id), set_seq before (_seq before + 1))
  /\ nth_error (fst (run (repeat now N) g)) k = Some (Ok (Some id))
  /\ id .& MAX_SEQ = _seq g + Z.of_nat k + 1
  /\ id >> 22 = _ts g
  /\ _ts (snd (__next__ now before)) = _ts g.
Proof.
  intros Hg Hnow _ Hroom Hk before id.
  pose proof (reachable_well_formed g Hg) as Hwf.
  destruct Hwf as (Hts & Hsq & Hrest).
  assert (Hbefore : before = set_seq g (_seq g + Z.of_nat k)).
  { apply same_ms_state; lia. }
  assert (Hcall : __next__ now before
                  = (Ok (Some id), set_seq before (_seq before + 1))).
  { rewrite Hbefore. rewrite next_same_ms by (cbn [set_seq _epoch _ts _seq]; lia).
    reflexivity. }
  split; [now rewrite Hbefore | split; [exact Hcall | split]].
  - rewrite (run_nth _ _ _ now) by (apply nth_repeat; exact Hk).
    rewrite firstn_of_repeat by lia. fold before. now rewrite Hcall.
  - destruct (minted_fields g (_ts g) (_seq g + Z.of_nat k + 1)) as [Hhi Hlo];
      [apply (reachable_well_formed g Hg) | lia |].
    split; [exact Hlo | split; [exact Hhi |]].
    rewrite Hcall, Hbefore. reflexivity.
Qed.

Lemma example_generator :
  __init__ 1 2 0 1000 None 1700000000000
  = Ok {| _epoch := 1000; _ts := 1699999999000; _inf := 139264; _seq := 0 |}.
Proof. reflexivity. Qed.

Lemma same_millisecond_sequence_witness :
  let g := {| _epoch := 1000; _ts := 1699999999000; _inf := 139264; _seq := 0 |} in
  __next__ 1700000000000 (snd (run (repeat 1700000000000 2) g))
  = (Ok (Some (7130316795805835267)),
     {| _epoch := 1000; _ts := 1699999999000; _inf := 139264; _seq := 3 |}).
Proof.
  intros g.
  refine (proj1 (proj2 (same_millisecond_sequence g 1700000000000 5 2 _ _ _ _ _))).
  - exact (reach_init _ _ _ _ _ _ _ example_generator).
  - reflexivity.
  - lia.
  - unfold MAX_SEQ; cbn; lia.
  - lia.
Defined.

(** C6. A call in the millisecond of [_ts] with the sequence at [MAX_SEQ]
    returns [None] and changes nothing; and when the clock moves to a new
    millisecond and stays there, the first 4096 calls return identifiers with
    the sequences 0..4095 and call number 4097 returns [None]. *)
Theorem sequence_exhaustion (g : t) (now : Z) :
  reachable g ->
  (now - _epoch g = _ts g -> _seq g = MAX_SEQ ->
   __next__ now g = (Ok None, g))
  /\ (_ts g < now - _epoch g < MAX_TS ->
      (forall k : nat, (k < 4096)%nat ->
         exists id,
           nth_error (fst (run (repeat now 4097) g)) k = Some (Ok (Some id))
           /\ id .& MAX_SEQ = Z.of_nat k
           /\ id >> 22 = now - _epoch g)
      /\ nth_error (fst (run (repeat now 4097) g)) 4096 = Some (Ok None)).
Proof.
  intros Hg. pose proof (reachable_well_formed g Hg) as Hwf.
  split.
  { intros Hnow Hsq. apply next_exhausted; [exact Hnow | apply Hwf | exact Hsq]. }
  intros Hfresh.
  set (g1 := set_ts (set_seq g 0) (now - _epoch g)).
  assert (Hfirst : __next__ now g
                   = (Ok (Some (((now - _epoch g) << 22) .| _inf g .| 0)), g1))
    by (now apply next_advance).
  assert (Hwf1 : well_formed g1).
  { replace g1 with (snd (__next__ now g)) by now rewrite Hfirst.
    now apply next_well_formed. }
  (* the state that call number k + 1 finds, for k up to 4095 *)
  assert (Hstate : forall j : nat, Z.of_nat j <= MAX_SEQ ->
            snd (run (repeat now (S j)) g) = set_seq g1 (Z.of_nat j)).
  { intros j Hj. cbn [repeat]. rewrite run_cons, Hfirst. cbn [snd].
    rewrite same_ms_state; cbn [g1 set_ts set_seq _epoch _ts _seq];
      unfold set_ts, set_seq; cbn [_epoch _ts _seq]; try lia. reflexivity. }
  assert (Hcall : forall k : nat, (k < 4097)%nat ->
            nth_error (fst (run (repeat now 4097) g)) k
            = Some (fst (__next__ now (snd (run (repeat now k) g))))).
  { intros k Hk. rewrite (run_nth _ _ _ now) by (apply nth_repeat; exact Hk).
    rewrite firstn_of_repeat by lia. reflexivity. }
  split.
  - intros k Hk. rewrite Hcall by lia. destruct k as [| j].
    + cbn [repeat run snd]. rewrite Hfirst. cbn [fst]. eexists. split; [reflexivity |].
      destruct (minted_fields g (now - _epoch g) 0) as [Hhi Hlo];
        [exact Hwf | unfold MAX_SEQ; lia |].
      split; [exact Hlo | exact Hhi].
    + rewrite Hstate by (unfold MAX_SEQ; lia).
      rewrite next_same_ms;
        cbn [g1 set_ts set_seq _epoch _ts _inf _seq];
        unfold set_ts, set_seq; cbn [_epoch _ts _inf _seq];
        try (unfold MAX_SEQ; lia).
      cbn [fst]. eexists. split; [reflexivity |].
      destruct (minted_fields g (now - _epoch g) (Z.of_nat j + 1)) as [Hhi Hlo];
        [exact Hwf | unfold MAX_SEQ; lia |].
      split; [rewrite Hlo; lia | exact Hhi].
  - rewrite Hcall by lia. rewrite Hstate by (unfold MAX_SEQ; lia).
    rewrite next_exhausted;
      cbn [g1 set_ts set_seq _epoch _ts _inf _seq];
      unfold set_ts, set_seq; cbn [_epoch _ts _inf _seq];
      try (unfold MAX_SEQ; lia).
    reflexivity.
Qed.

Lemma sequence_exhaustion_witness :
  let g := {| _epoch := 1000; _ts := 1699999999000; _inf := 139264; _seq := 0 |} in
  nth_error (fst (run (repeat 1700000000001 4097) g)) 4096 = Some (Ok None).
Proof.
  intros g.
  refine (proj2 (proj2 (sequence_exhaustion g 1700000000001 _) _)).
  - exact (reach_init _ _ _ _ _ _ _ example_generator).
  - unfold MAX_TS; cbn; lia.
Defined.

(** C7. When the clock reads a millisecond before [_ts], the call returns
    [None] and the state after it is the state before it, in all four
    attributes; so the call that follows goes as if the backward reading had
    not happened: with the clock on the millisecond of [_ts] it mints the next
    sequence, and with a later clock it mints sequence 0 of that
    millisecond. *)
Theorem backward_clock (g : t) (now : Z) :
  reachable g ->
  now - _epoch g < _ts g ->
  __next__ now g = (Ok None, g)
  /\ (forall later, __next__ later (snd (__next__ now g)) = __next__ later g)
  /\ (forall later,
        later - _epoch g = _ts g -> _seq g < MAX_SEQ ->
        exists id,
          __next__ later (snd (__next__ now g))
          = (Ok (Some id), set_seq g (_seq g + 1))
          /\ id >> 22 = _ts g
          /\ id .& MAX_SEQ = _seq g + 1)
  /\ (forall later,
        _ts g < later - _epoch g < MAX_TS ->
        exists id,
          __next__ later (snd (__next__ now g))
          = (Ok (Some id), set_ts (set_seq g 0) (later - _epoch g))
          /\ id >> 22 = later - _epoch g
          /\ id .& MAX_SEQ = 0).
Proof.
  intros Hg Hback. pose proof (reachable_well_formed g Hg) as Hwf.
  assert (Hnone : __next__ now g = (Ok None, g)).
  { apply next_backward; [exact Hback |]. destruct Hwf as [Hts _]. lia. }
  rewrite Hnone. cbn [snd].
  split; [reflexivity | split; [reflexivity | split]].
  - intros later Hsame Hroom.
    rewrite next_same_ms by (try apply Hwf; lia).
    eexists. split; [reflexivity |].
    apply minted_fields; [exact Hwf |]. destruct Hwf as (_ & Hsq & _). lia.
  - intros later Hlater. rewrite next_advance by exact Hlater.
    eexists. split; [reflexivity |].
    apply minted_fields; [exact Hwf | unfold MAX_SEQ; lia].
Qed.

Lemma backward_clock_witness :
  let g := {| _epoch := 1000; _ts := 1699999999000; _inf := 139264; _seq := 0 |} in
  __next__ 1699999999999 g = (Ok None, g).
Proof.
  intros g.
  refine (proj1 (backward_clock g 1699999999999 _ _)).
  - exact (reach_init _ _ _ _ _ _ _ example_generator).
  - cbn; lia.
Defined.

(** C8. From a reachable state, whatever the clock readings of a series of
    calls: the state after them is reachable, [_ts] has not moved backward,
    and [_seq] is in 0..[MAX_SEQ]; and one more call does not move [_ts]
    backward, leaves [_seq] in 0..[MAX_SEQ], and, where it moves [_ts]
    forward, sets [_seq] to 0 and returns an identifier with sequence 0 and
    the new timestamp. *)
Theorem generator_invariant (g : t) (nows : list Z) :
  reachable g ->
  let g' := snd (run nows g) in
  reachable g'
  /\ _ts g <= _ts g'
  /\ 0 <= _seq g' <= MAX_SEQ
  /\ forall now,
       let g'' := snd (__next__ now g') in
       _ts g' <= _ts g''
       /\ 0 <= _seq g'' <= MAX_SEQ
       /\ (_ts g' < _ts g'' ->
           _seq g'' = 0
           /\ _ts g'' = now - _epoch g'
           /\ exists id,
                fst (__next__ now g') = Ok (Some id)
                /\ id >> 22 = _ts g''
                /\ id .& MAX_SEQ = 0).
Proof.
  intros Hg g'.
  assert (Hg' : reachable g') by (now apply run_reachable).
  pose proof (reachable_well_formed g' Hg') as Hwf.
  split; [exact Hg' | split; [apply run_ts_monotone | split; [apply Hwf |]]].
  intros now g''. split; [apply next_ts_monotone | split].
  - apply (next_well_formed now g' Hwf).
  - subst g''. intros Hadv.
    destruct (next_cases now g') as [H | [H | [H | [H | H]]]].
    + rewrite next_overflow in Hadv by exact H. cbn in Hadv. lia.
    + rewrite next_same_ms in Hadv by tauto. cbn in Hadv. lia.
    + rewrite next_exhausted in Hadv by tauto. cbn in Hadv. lia.
    + rewrite next_backward in Hadv by (destruct Hwf; lia). cbn in Hadv. lia.
    + rewrite next_advance by exact H. cbn [fst snd set_ts set_seq _seq _ts].
      split; [reflexivity | split; [reflexivity |]].
      eexists. split; [reflexivity |].
      apply minted_fields; [exact Hwf | unfold MAX_SEQ; lia].
Qed.

Lemma generator_invariant_witness :
  let g := {| _epoch := 1000; _ts := 1699999999000; _inf := 139264; _seq := 0 |} in
  let g' := snd (run [1700000000000; 1700000000000; 1699999999990; 1700000000007] g) in
  _ts g <= _ts g' /\ 0 <= _seq g' <= MAX_SEQ.
Proof.
  intros g g'.
  pose proof (generator_invariant g
    [1700000000000; 1700000000000; 1699999999990; 1700000000007]
    (reach_init _ _ _ _ _ _ _ example_generator)) as H.
  cbv zeta in H. split; [exact (proj1 (proj2 H)) | exact (proj1 (proj2 (proj2 H)))].
Defined.

(** C9. Building a generator raises [OverflowError] when the clock, counted
    from the epoch, has reached [MAX_TS]; and so does a call of [__next__],
    which then returns neither an identifier nor [None] and leaves the state
    as it was. *)
Theorem epoch_exhaustion :
  (forall dc inst sq ep timestamp current,
      current - ep >= MAX_TS ->
      __init__ dc inst sq ep timestamp current = Raise OverflowError)
  /\ (forall g now,
      now - _epoch g >= MAX_TS ->
      __next__ now g = (Raise OverflowError, g)).
Proof.
  split.
  - intros dc inst sq ep timestamp current H.
    unfold_init. rewrite Z.geb_leb.
    destruct (Z.leb_spec MAX_TS (current - ep)); [reflexivity | lia].
  - intros g now H. now apply next_overflow.
Qed.

Lemma epoch_exhaustion_witness :
  __init__ 1 2 0 0 None 2199023255551 = Raise OverflowError
  /\ __next__ 2199023256551
       {| _epoch := 1000; _ts := 1699999999000; _inf := 139264; _seq := 0 |}
     = (Raise OverflowError,
        {| _epoch := 1000; _ts := 1699999999000; _inf := 139264; _seq := 0 |}).
Proof.
  split.
  - apply (proj1 epoch_exhaustion). unfold MAX_TS. lia.
  - apply (proj2 epoch_exhaustion). unfold MAX_TS. cbn. lia.
Defined.

(** C10. With a clock that is not negative, a generator built with
    [timestamp=0] is the generator built with no timestamp: [_ts] is
    [current - epoch], not [0 - epoch], and the timestamp check does not
    raise. *)
Theorem zero_timestamp_is_default (dc inst sq ep current : Z) :
  0 <= current ->
  __init__ dc inst sq ep (Some 0) current = __init__ dc inst sq ep None current
  /\ (forall g, __init__ dc inst sq ep (Some 0) current = Ok g ->
                _ts g = current - ep
                /\ (current <> 0 -> _ts g <> 0 - ep))
  /\ __init__ dc inst sq ep (Some 0) current <> Raise (ValueError TimestampCheck).
Proof.
  intros Hcur. split; [reflexivity | split].
  - intros g H. apply init_inv in H. destruct H as [-> _].
    cbn [_ts or_current Z.eqb]. lia.
  - unfold_init. cbn [or_current Z.eqb]. compare_all; discriminate.
Qed.

Lemma zero_timestamp_is_default_witness :
  __init__ 1 2 0 1000 (Some 0) 1700000000000
  = __init__ 1 2 0 1000 None 1700000000000.
Proof.
  refine (proj1 (zero_timestamp_is_default 1 2 0 1000 1700000000000 _)). lia.
Defined.

Example zero_timestamp_generator :
  __init__ 1 2 0 1000 (Some 0) 1700000000000
  = Ok {| _epoch := 1000; _ts := 1699999999000; _inf := 139264; _seq := 0 |}.
Proof. reflexivity. Qed.

(** The worked example of the specification. *)
Example value_example :
  Snowflake.value (Snowflake.mk 123456789 1 2 0 3) = 517815304069123
  /\ Snowflake.parse 517815304069123 0 = Ok (Snowflake.mk 123456789 1 2 0 3).
Proof. split; reflexivity. Qed.

(** * Further properties of the code *)

(** ** The packed integer as a sum *)

Lemma lor_shifted_add (hi lo k : Z) :
  0 <= k -> 0 <= lo < 2 ^ k -> (hi << k) .| lo = hi * 2 ^ k + lo.
Proof.
  intros Hk Hlo.
  assert (Hdisjoint : (hi << k) .& lo = 0).
  { apply Z.bits_inj'; intros n Hn.
    rewrite Z.land_spec, Z.bits_0, testbit_shiftl by lia.
    destruct (Z.ltb_spec n k); [reflexivity |].
    rewrite (testbit_high lo k n) by lia. apply andb_false_r. }
  rewrite <- Z.lxor_lor, <- Z.add_nocarry_lxor by exact Hdisjoint.
  now rewrite Z.shiftl_mul_pow2 by exact Hk.
Qed.

Lemma packed_sum (ts dc inst sq : Z) :
  0 <= dc <= MAX_DATACENTER -> 0 <= inst <= MAX_INSTANCE -> 0 <= sq <= MAX_SEQ ->
  (ts << 22) .| (dc << 17) .| (inst << 12) .| sq
  = ts * 4194304 + dc * 131072 + inst * 4096 + sq.
Proof.
  unfold MAX_DATACENTER, MAX_INSTANCE, MAX_SEQ. intros Hdc Hinst Hsq.
  rewrite <- !Z.lor_assoc.
  rewrite (lor_shifted_add inst sq 12) by (change (2 ^ 12) with 4096; lia).
  change (2 ^ 12) with 4096.
  rewrite (lor_shifted_add dc _ 17) by (change (2 ^ 17) with 131072; lia).
  change (2 ^ 17) with 131072.
  rewrite (lor_shifted_add ts _ 22) by (change (2 ^ 22) with 4194304; lia).
  change (2 ^ 22) with 4194304. lia.
Qed.

Lemma value_sum (i : Snowflake.t) :
  in_bounds i ->
  Snowflake.value i
  = Snowflake.timestamp i * 4194304 + Snowflake.datacenter i * 131072
    + Snowflake.instance i * 4096 + Snowflake.seq i.
Proof.
  intros (_ & _ & Hdc & Hinst & Hsq). unfold Snowflake.value.
  now apply packed_sum.
Qed.

Ltac bounds_of H :=
  unfold in_bounds, MAX_TS, MAX_DATACENTER, MAX_INSTANCE, MAX_SEQ in H.

(** ** Identifiers as integers *)

(** X1. The value of an identifier whose fields are in bounds is the sum
    [timestamp * 2^22 + datacenter * 2^17 + instance * 2^12 + seq], and it
    lies in 0..2^63-1: it fits a signed 64-bit integer. *)
Theorem value_fits_63_bits (i : Snowflake.t) :
  in_bounds i ->
  Snowflake.value i
  = Snowflake.timestamp i * 2 ^ 22 + Snowflake.datacenter i * 2 ^ 17
    + Snowflake.instance i * 2 ^ 12 + Snowflake.seq i
  /\ 0 <= Snowflake.value i < 2 ^ 63
  /\ Snowflake.__int__ i = Snowflake.value i.
Proof.
  intros Hb. unfold Snowflake.__int__. rewrite (value_sum i Hb). bounds_of Hb.
  change (2 ^ 22) with 4194304. change (2 ^ 17) with 131072.
  change (2 ^ 12) with 4096. change (2 ^ 63) with 9223372036854775808.
  repeat split; lia.
Qed.

Lemma value_fits_63_bits_witness :
  0 <= Snowflake.value (Snowflake.mk 2199023255551 31 31 0 4095) < 2 ^ 63.
Proof.
  refine (proj1 (proj2 (value_fits_63_bits (Snowflake.mk 2199023255551 31 31 0 4095) _))).
  unfold in_bounds, MAX_TS, MAX_DATACENTER, MAX_INSTANCE, MAX_SEQ; cbn; lia.
Defined.

(** X2. Two identifiers in bounds with the same epoch and the same value
    are the same identifier: the value determines the four packed fields. *)
Theorem value_injective (i j : Snowflake.t) :
  in_bounds i -> in_bounds j ->
  Snowflake.epoch i = Snowflake.epoch j ->
  Snowflake.value i = Snowflake.value j ->
  i = j.
Proof.
  intros Hi Hj Hep. rewrite (value_sum i Hi), (value_sum j Hj).
  bounds_of Hi. bounds_of Hj.
  destruct i as [t1 d1 n1 e1 s1], j as [t2 d2 n2 e2 s2]. cbn in *.
  intros Hv.
  assert (t1 = t2) by lia. assert (d1 = d2) by lia.
  assert (n1 = n2) by lia. assert (s1 = s2) by lia. now subst.
Qed.

Lemma value_injective_witness :
  Snowflake.mk 123456789 1 2 0 3 = Snowflake.mk 123456789 1 2 0 3.
Proof.
  apply value_injective;
    try (unfold in_bounds, MAX_TS, MAX_DATACENTER, MAX_INSTANCE, MAX_SEQ; cbn; lia);
    reflexivity.
Defined.

(** X3. Among identifiers in bounds, the order of the values is the
    lexicographic order of (timestamp, datacenter, instance, seq); so an
    identifier with an earlier timestamp has the smaller value. *)
Theorem value_order (i j : Snowflake.t) :
  in_bounds i -> in_bounds j ->
  (Snowflake.value i < Snowflake.value j <-> fields_lt i j)
  /\ (Snowflake.timestamp i < Snowflake.timestamp j ->
      Snowflake.value i < Snowflake.value j).
Proof.
  intros Hi Hj. rewrite (value_sum i Hi), (value_sum j Hj).
  bounds_of Hi. bounds_of Hj. unfold fields_lt.
  destruct i as [t1 d1 n1 e1 s1], j as [t2 d2 n2 e2 s2]. cbn in *.
  split; [split |]; lia.
Qed.

Lemma value_order_witness :
  Snowflake.value (Snowflake.mk 5 31 31 0 4095) < Snowflake.value (Snowflake.mk 6 0 0 7 0).
Proof.
  refine (proj2 (value_order (Snowflake.mk 5 31 31 0 4095) (Snowflake.mk 6 0 0 7 0) _ _) _);
    unfold in_bounds, MAX_TS, MAX_DATACENTER, MAX_INSTANCE, MAX_SEQ; cbn; lia.
Defined.

(** X4. Whatever integer is parsed, an identifier that [parse] returns has
    that integer as its value and the epoch given; so two integers that parse
    to the same identifier are equal. *)
Theorem parse_injective (x y e e' : Z) (i : Snowflake.t) :
  Snowflake.parse x e = Ok i ->
  Snowflake.parse y e' = Ok i ->
  x = y /\ e = e' /\ Snowflake.value i = x /\ Snowflake.epoch i = e.
Proof.
  assert (Hback : forall z ep k, Snowflake.parse z ep = Ok k ->
            Snowflake.value k = z /\ Snowflake.epoch k = ep).
  { intros z ep k H. apply new_inv in H. destruct H as [-> _].
    split; [exact (unpacked_fields z) | reflexivity]. }
  intros Hx Hy. destruct (Hback _ _ _ Hx) as [Hvx Hex].
  destruct (Hback _ _ _ Hy) as [Hvy Hey].
  repeat split; congruence.
Qed.

Lemma parse_injective_witness :
  517815304069123 = 517815304069123 /\ 0 = 0
  /\ Snowflake.value (Snowflake.mk 123456789 1 2 0 3) = 517815304069123
  /\ Snowflake.epoch (Snowflake.mk 123456789 1 2 0 3) = 0.
Proof.
  apply (parse_injective 517815304069123 517815304069123 0 0); reflexivity.
Defined.

(** X5. [parse] never raises for the datacenter, the instance or the
    sequence: a negative epoch raises the epoch error whatever the integer,
    and otherwise the only error is that of the timestamp. *)
Theorem parse_error_kinds (raw ep : Z) :
  (ep < 0 -> Snowflake.parse raw ep = Raise (ValueError EpochCheck))
  /\ (forall e, Snowflake.parse raw ep = Raise e ->
        e = ValueError EpochCheck \/ e = ValueError TimestampCheck)
  /\ (Snowflake.parse raw ep = Raise (ValueError TimestampCheck)
      <-> 0 <= ep /\ (raw < 0 \/ 2 ^ 63 <= raw)).
Proof.
  pose proof (shiftr_22_range raw) as Hts.
  pose proof (mask_range (raw >> 17) 5) as Hdc.
  pose proof (mask_range (raw >> 12) 5) as Hinst.
  pose proof (mask_range raw 12) as Hsq.
  rewrite <- MAX_DATACENTER_ones in Hdc. rewrite <- MAX_INSTANCE_ones in Hinst.
  rewrite <- MAX_SEQ_ones in Hsq.
  specialize (Hdc ltac:(lia)). specialize (Hinst ltac:(lia)).
  specialize (Hsq ltac:(lia)).
  unfold_checks.
  generalize dependent ((raw >> 17) .& MAX_DATACENTER).
  generalize dependent ((raw >> 12) .& MAX_INSTANCE).
  generalize dependent (raw .& MAX_SEQ).
  generalize dependent (raw >> 22).
  intros ts Hts sq Hsq inst Hinst dc Hdc.
  compare_all; (split; [| split]);
    try (intros; discriminate); try (intros; reflexivity);
    try (intros; lia);
    try (intros e He; injection He as <-; tauto);
    try (split; [intros He; try discriminate He; lia | intros; try reflexivity; lia]).
Qed.

(** ** Building a generator *)

Lemma init_ok (dc inst sq ep : Z) (timestamp : option Z) (current : Z) :
  current - ep < MAX_TS ->
  0 <= or_current timestamp current <= current ->
  0 <= ep <= current ->
  0 <= dc <= MAX_DATACENTER ->
  0 <= inst <= MAX_INSTANCE ->
  0 <= sq <= MAX_SEQ ->
  __init__ dc inst sq ep timestamp current
  = Ok {| _epoch := ep;
          _ts := or_current timestamp current - ep;
          _inf := (dc << 17) .| (inst << 12);
          _seq := sq |}.
Proof.
  intros Hov Hts Hep Hdc Hinst Hsq.
  unfold_init. generalize dependent (or_current timestamp current).
  intros ts Hts. compare_all; reflexivity.
Qed.

(** X6. [__init__] returns a generator exactly when the clock counted from
    the epoch is below [MAX_TS], the start timestamp ([current] when it is
    missing or 0) and the epoch are in 0..[current], and the datacenter, the
    instance and the sequence are in bounds; the generator then holds the
    epoch, the timestamp counted from the epoch, the packed instance field and
    the sequence.  Overflow is reported before any bound. *)
Theorem init_succeeds_iff (dc inst sq ep : Z) (timestamp : option Z) (current : Z) :
  (forall g,
      __init__ dc inst sq ep timestamp current = Ok g
      <-> (current - ep < MAX_TS
           /\ 0 <= or_current timestamp current <= current
           /\ 0 <= ep <= current
           /\ 0 <= dc <= MAX_DATACENTER
           /\ 0 <= inst <= MAX_INSTANCE
           /\ 0 <= sq <= MAX_SEQ
           /\ g = {| _epoch := ep;
                     _ts := or_current timestamp current - ep;
                     _inf := (dc << 17) .| (inst << 12);
                     _seq := sq |}))
  /\ (__init__ dc inst sq ep timestamp current = Raise OverflowError
      <-> current - ep >= MAX_TS)
  /\ (raises_ValueError (__init__ dc inst sq ep timestamp current)
      <-> current - ep < MAX_TS
          /\ ~ (0 <= or_current timestamp current <= current
                /\ 0 <= ep <= current
                /\ 0 <= dc <= MAX_DATACENTER
                /\ 0 <= inst <= MAX_INSTANCE
                /\ 0 <= sq <= MAX_SEQ)).
Proof.
  split; [| split].
  - intros g. split.
    + intros H. apply init_inv in H. tauto.
    + intros (Hov & Hts & Hep & Hdc & Hinst & Hsq & ->). now apply init_ok.
  - unfold_init. generalize (or_current timestamp current) as ts; intros ts.
    compare_all; split; intros Hx; try discriminate Hx; try reflexivity; lia.
  - unfold raises_ValueError. unfold_init.
    generalize (or_current timestamp current) as ts; intros ts.
    compare_all; split;
      try (intros [c Hc]; discriminate Hc);
      try (intros _; lia); try (intros [? ?]; lia);
      try (intros _; eexists; reflexivity).
Qed.

(** ** One call of the generator, from any state *)

Lemma next_outcome (now : Z) (g : t) :
  (exists id, fst (__next__ now g) = Ok (Some id))
  \/ (fst (__next__ now g) = Ok None /\ snd (__next__ now g) = g)
  \/ (fst (__next__ now g) = Raise OverflowError /\ snd (__next__ now g) = g).
Proof.
  unfold_next. compare_all; cbn [fst snd]; eauto.
Qed.

(** What a call that mints returns and leaves behind. *)
Lemma next_minted (now : Z) (g : t) (id : Z) :
  fst (__next__ now g) = Ok (Some id) ->
  _ts g <= now - _epoch g < MAX_TS
  /\ snd (__next__ now g)
     = {| _epoch := _epoch g; _ts := now - _epoch g; _inf := _inf g;
          _seq := if _ts g =? now - _epoch g then _seq g + 1 else 0 |}
  /\ (_ts g = now - _epoch g -> _seq g <> MAX_SEQ)
  /\ id = last_id (snd (__next__ now g)).
Proof.
  unfold last_id. unfold_next.
  compare_all; cbn [fst snd _epoch _ts _inf _seq]; intros Hid;
    try discriminate Hid; injection Hid as <-;
    repeat split; try lia; try congruence.
Qed.

(** X7. Whatever the state: a call never changes the epoch nor the
    instance field; a call that returns [None] or raises leaves the whole
    state as it was; and [None] is returned exactly when the clock, below the
    overflow bound, reads before [_ts], or reads [_ts] with the sequence at
    [MAX_SEQ]. *)
Theorem next_frame (now : Z) (g : t) :
  _epoch (snd (__next__ now g)) = _epoch g
  /\ _inf (snd (__next__ now g)) = _inf g
  /\ ((forall id, fst (__next__ now g) <> Ok (Some id)) ->
      snd (__next__ now g) = g)
  /\ (fst (__next__ now g) = Ok None
      <-> now - _epoch g < MAX_TS
          /\ (now - _epoch g < _ts g
              \/ (now - _epoch g = _ts g /\ _seq g = MAX_SEQ))).
Proof.
  destruct (next_keeps_epoch_inf now g) as [Hep Hinf].
  split; [exact Hep | split; [exact Hinf | split]].
  - intros Hno. destruct (next_outcome now g) as [[id Hid] | [[_ H] | [_ H]]];
      [now elim (Hno id) | exact H | exact H].
  - unfold_next. compare_all; cbn [fst]; split; intros Hx;
      try discriminate Hx; try reflexivity; lia.
Qed.

Lemma run_keeps_epoch_inf (nows : list Z) (g : t) :
  _epoch (snd (run nows g)) = _epoch g /\ _inf (snd (run nows g)) = _inf g.
Proof.
  revert g. induction nows as [| now rest IH]; intros g; [now split |].
  rewrite run_cons. cbn [snd].
  destruct (IH (snd (__next__ now g))) as [-> ->]. apply next_keeps_epoch_inf.
Qed.

(** X8. Overflow is final while the clock does not go back: once the clock
    counted from the epoch has reached [MAX_TS], every later call raises
    [OverflowError], whatever calls came between, and no series of calls
    mints an identifier from then on. *)
Theorem overflow_is_permanent (g : t) (now : Z) (nows : list Z) (later : Z) :
  now - _epoch g >= MAX_TS ->
  now <= later ->
  Forall (fun n => now <= n) nows ->
  __next__ later (snd (run nows g)) = (Raise OverflowError, snd (run nows g))
  /\ minted (fst (run nows g)) = []
  /\ snd (run nows g) = g.
Proof.
  intros Hov Hlater Hall.
  assert (Hrun : minted (fst (run nows g)) = [] /\ snd (run nows g) = g).
  { induction Hall as [| n rest Hn _ IH]; [now split |].
    rewrite run_cons. cbn [fst snd].
    rewrite next_overflow by lia. cbn [fst snd minted]. exact IH. }
  destruct Hrun as [Hnone Hsame]. rewrite Hsame.
  split; [apply next_overflow; lia | now split].
Qed.

Lemma overflow_is_permanent_witness :
  let g := {| _epoch := 1000; _ts := 1699999999000; _inf := 139264; _seq := 0 |} in
  __next__ 2199023256600 (snd (run [2199023256551; 2199023256560] g))
  = (Raise OverflowError, snd (run [2199023256551; 2199023256560] g)).
Proof.
  intros g.
  refine (proj1 (overflow_is_permanent g 2199023256551
                   [2199023256551; 2199023256560] 2199023256600 _ _ _)).
  - unfold MAX_TS; cbn; lia.
  - lia.
  - repeat constructor; lia.
Defined.

(** ** The identifiers a generator mints *)

Lemma minted_sum (g : t) :
  well_formed g ->
  exists base,
    0 <= base <= 4190208
    /\ forall ts sq, 0 <= sq <= MAX_SEQ ->
         (ts << 22) .| _inf g .| sq = ts * 4194304 + base + sq.
Proof.
  intros (_ & _ & _ & dc & inst & Hdc & Hinst & ->).
  exists (dc * 131072 + inst * 4096). split.
  - unfold MAX_DATACENTER, MAX_INSTANCE in *. lia.
  - intros ts sq Hsq. rewrite lor_instance_field, packed_sum by assumption. lia.
Qed.

Lemma next_increases (now : Z) (g : t) (id : Z) :
  well_formed g ->
  fst (__next__ now g) = Ok (Some id) ->
  last_id g < id.
Proof.
  intros Hwf Hid. pose proof (next_well_formed now g Hwf) as Hwf'.
  destruct (next_minted now g id Hid) as (Hcur & Hg' & Hroom & ->).
  destruct (minted_sum g Hwf) as (base & Hbase & Hsum).
  destruct Hwf as (_ & Hsq & _). destruct Hwf' as (_ & Hsq' & _).
  rewrite Hg' in Hsq' |- *. unfold last_id. cbn [_ts _inf _seq] in *.
  rewrite !Hsum by assumption. unfold MAX_SEQ in *.
  destruct (Z.eqb_spec (_ts g) (now - _epoch g)); lia.
Qed.

Lemma run_minted_sorted (nows : list Z) (g : t) :
  well_formed g ->
  StronglySorted Z.lt (minted (fst (run nows g)))
  /\ Forall (fun id => last_id g < id) (minted (fst (run nows g))).
Proof.
  revert g. induction nows as [| now rest IH]; intros g Hwf.
  - cbn. split; constructor.
  - rewrite run_cons. cbn [fst].
    destruct (next_outcome now g) as [[id Hid] | [[Hr Hg] | [Hr Hg]]].
    + rewrite Hid. cbn [minted].
      destruct (IH _ (next_well_formed now g Hwf)) as [Hsorted Hall].
      pose proof (next_increases now g id Hwf Hid) as Hlt.
      destruct (next_minted now g id Hid) as (_ & _ & _ & Hlast).
      rewrite <- Hlast in Hall.
      split; constructor; try assumption.
      eapply Forall_impl; [| exact Hall]. cbv beta. intros; lia.
    + rewrite Hr, Hg. cbn [minted]. now apply IH.
    + rewrite Hr, Hg. cbn [minted]. now apply IH.
Qed.

Lemma sorted_lt_NoDup (l : list Z) : StronglySorted Z.lt l -> NoDup l.
Proof.
  induction 1 as [| a l _ IH Hall]; constructor; [| exact IH].
  intros Hin. rewrite Forall_forall in Hall. specialize (Hall a Hin). lia.
Qed.

(** X9. Whatever the clock does over a series of calls, the identifiers a
    generator returns are strictly increasing in the order returned, each
    greater than the identifier of the state the series started from; so no
    identifier is returned twice. *)
Theorem minted_strictly_increasing (g : t) (nows : list Z) :
  reachable g ->
  StronglySorted Z.lt (minted (fst (run nows g)))
  /\ Forall (fun id => last_id g < id) (minted (fst (run nows g)))
  /\ NoDup (minted (fst (run nows g))).
Proof.
  intros Hg.
  destruct (run_minted_sorted nows g (reachable_well_formed g Hg)) as [Hs Hall].
  split; [exact Hs | split; [exact Hall | now apply sorted_lt_NoDup]].
Qed.

Lemma minted_strictly_increasing_witness :
  let g := {| _epoch := 1000; _ts := 1699999999000; _inf := 139264; _seq := 0 |} in
  NoDup (minted (fst (run [1700000000000; 1700000000000; 1699999999990;
                           1700000000007; 1700000000007] g))).
Proof.
  intros g.
  refine (proj2 (proj2 (minted_strictly_increasing g _ _))).
  exact (reach_init _ _ _ _ _ _ _ example_generator).
Defined.

Lemma run_minted_form (nows : list Z) (g : t) :
  well_formed g ->
  Forall (fun id => exists ts sq,
            0 <= sq <= MAX_SEQ /\ id = (ts << 22) .| _inf g .| sq)
         (minted (fst (run nows g))).
Proof.
  revert g. induction nows as [| now rest IH]; intros g Hwf; [constructor |].
  rewrite run_cons. cbn [fst].
  pose proof (next_well_formed now g Hwf) as Hwf'.
  specialize (IH _ Hwf').
  destruct (next_keeps_epoch_inf now g) as [_ Hinf]. rewrite Hinf in IH.
  destruct (fst (__next__ now g)) as [[id |] | e] eqn:Hid; cbn [minted];
    try exact IH.
  constructor; [| exact IH].
  destruct (next_minted now g id Hid) as (_ & Hg' & _ & ->).
  destruct Hwf' as (_ & Hsq' & _).
  exists (_ts (snd (__next__ now g))), (_seq (snd (__next__ now g))).
  split; [exact Hsq' |]. unfold last_id. now rewrite Hinf.
Qed.

(** X10. However many calls are made and whatever the clock does, at most
    4096 of the identifiers returned carry any one timestamp. *)
Theorem at_most_4096_per_millisecond (g : t) (nows : list Z) (T : Z) :
  reachable g ->
  (length (filter (fun id => (id >> 22 =? T)%Z) (minted (fst (run nows g))))
   <= 4096)%nat.
Proof.
  intros Hg. pose proof (reachable_well_formed g Hg) as Hwf.
  set (slots := map (fun k => (T << 22) .| _inf g .| Z.of_nat k) (List.seq 0 4096)).
  replace 4096%nat with (length slots)
    by (unfold slots; now rewrite length_map, length_seq).
  apply NoDup_incl_length.
  - apply NoDup_filter.
    now destruct (run_minted_sorted nows g Hwf) as [Hs _]; apply sorted_lt_NoDup.
  - intros id Hin. apply filter_In in Hin. destruct Hin as [Hin HT].
    pose proof (run_minted_form nows g Hwf) as Hform.
    rewrite Forall_forall in Hform.
    destruct (Hform id Hin) as (ts & sq & Hsq & ->).
    destruct (minted_fields g ts sq Hwf Hsq) as [Hhi _].
    rewrite Hhi in HT. apply Z.eqb_eq in HT. subst ts.
    unfold slots. apply in_map_iff. exists (Z.to_nat sq). split.
    + now rewrite Z2Nat.id by lia.
    + apply in_seq. unfold MAX_SEQ in Hsq. lia.
Qed.

Lemma at_most_4096_per_millisecond_witness :
  let g := {| _epoch := 1000; _ts := 1699999999000; _inf := 139264; _seq := 0 |} in
  (length (filter (fun id => (id >> 22 =? 1699999999000)%Z)
             (minted (fst (run (repeat 1700000000000%Z 5000) g)))) <= 4096)%nat.
Proof.
  intros g.
  apply (at_most_4096_per_millisecond g (repeat 1700000000000 5000%nat) 1699999999000).
  exact (reach_init _ _ _ _ _ _ _ example_generator).
Defined.

(** ** Generator and identifier together *)

Lemma run_prefix_state (dc inst sq ep : Z) (timestamp : option Z) (current : Z)
    (g0 : t) (nows : list Z) :
  __init__ dc inst sq ep timestamp current = Ok g0 ->
  well_formed (snd (run nows g0))
  /\ _epoch (snd (run nows g0)) = ep
  /\ _inf (snd (run nows g0)) = (dc << 17) .| (inst << 12)
  /\ 0 <= dc <= MAX_DATACENTER
  /\ 0 <= inst <= MAX_INSTANCE.
Proof.
  intros Hinit.
  pose proof (reach_init _ _ _ _ _ _ _ Hinit) as Hreach.
  apply (run_reachable nows) in Hreach. apply reachable_well_formed in Hreach.
  destruct (run_keeps_epoch_inf nows g0) as [Hep Hinf].
  apply init_inv in Hinit. destruct Hinit as (-> & _ & _ & _ & Hdc & Hinst & _).
  cbn [_epoch _inf] in Hep, Hinf. tauto.
Qed.

(** What [parse] makes of an identifier minted from a well-formed state. *)
Lemma minted_parses (g : t) (now id dc inst : Z) :
  well_formed g ->
  _inf g = (dc << 17) .| (inst << 12) ->
  0 <= dc <= MAX_DATACENTER -> 0 <= inst <= MAX_INSTANCE ->
  fst (__next__ now g) = Ok (Some id) ->
  _epoch g <= now ->
  Snowflake.parse id (_epoch g)
  = Ok (Snowflake.mk (now - _epoch g) dc inst (_epoch g)
          (_seq (snd (__next__ now g))))
  /\ 0 <= _seq (snd (__next__ now g)) <= MAX_SEQ.
Proof.
  intros Hwf Hinf Hdc Hinst Hid Hnow.
  pose proof (next_well_formed now g Hwf) as (_ & Hsq' & _).
  destruct (next_minted now g id Hid) as (Hcur & Hg' & _ & ->).
  split; [| exact Hsq'].
  unfold last_id. rewrite Hg' in Hsq' |- *. cbn [_ts _inf _seq] in *.
  rewrite Hinf, lor_instance_field. unfold Snowflake.parse.
  rewrite packed_timestamp, packed_datacenter, packed_instance, packed_seq
    by assumption.
  apply new_ok. destruct Hwf as (_ & _ & Hep & _).
  unfold in_bounds; cbn [Snowflake.epoch Snowflake.timestamp
    Snowflake.datacenter Snowflake.instance Snowflake.seq]. lia.
Qed.

(** X11. An identifier returned by a generator built for a datacenter and
    an instance, at a clock reading not before the epoch, parses with the
    generator's epoch to an identifier of that datacenter and instance whose
    [milliseconds] is the clock reading of the call. *)
Theorem minted_id_decodes (dc inst sq ep : Z) (timestamp : option Z)
    (current : Z) (g0 : t) (nows : list Z) (k : nat) (now id : Z) :
  __init__ dc inst sq ep timestamp current = Ok g0 ->
  nth_error nows k = Some now ->
  nth_error (fst (run nows g0)) k = Some (Ok (Some id)) ->
  ep <= now ->
  exists i,
    Snowflake.parse id ep = Ok i
    /\ Snowflake.datacenter i = dc
    /\ Snowflake.instance i = inst
    /\ Snowflake.epoch i = ep
    /\ Snowflake.timestamp i = now - ep
    /\ Snowflake.milliseconds i = now
    /\ Snowflake.value i = id.
Proof.
  intros Hinit Hnow Hid Hep.
  rewrite (run_nth _ _ _ now Hnow) in Hid. injection Hid as Hid.
  destruct (run_prefix_state _ _ _ _ _ _ _ (firstn k nows) Hinit)
    as (Hwf & Hepk & Hinf & Hdc & Hinst).
  set (gk := snd (run (firstn k nows) g0)) in *.
  destruct (minted_parses gk now id dc inst Hwf Hinf Hdc Hinst Hid) as [Hparse _];
    [lia |].
  rewrite Hepk in Hparse. eexists. split; [exact Hparse |].
  cbn [Snowflake.datacenter Snowflake.instance Snowflake.epoch
         Snowflake.timestamp]. unfold Snowflake.milliseconds.
  cbn [Snowflake.epoch Snowflake.timestamp].
  repeat split; try lia.
  apply new_inv in Hparse. destruct Hparse as [Hi _].
  rewrite Hi. exact (unpacked_fields id).
Qed.

Lemma minted_id_decodes_witness :
  exists i,
    Snowflake.parse 7130316795810029569 1000 = Ok i
    /\ Snowflake.datacenter i = 1
    /\ Snowflake.instance i = 2
    /\ Snowflake.epoch i = 1000
    /\ Snowflake.timestamp i = 1700000000001 - 1000
    /\ Snowflake.milliseconds i = 1700000000001
    /\ Snowflake.value i = 7130316795810029569.
Proof.
  refine (minted_id_decodes 1 2 0 1000 None 1700000000000 _
            [1700000000000; 1700000000001; 1700000000001] 2
            1700000000001 7130316795810029569 example_generator _ _ _).
  - reflexivity.
  - reflexivity.
  - lia.
Defined.

(** X12. An identifier a generator returns carries the clock reading
    counted from the epoch as its timestamp part, always below [MAX_TS]: the
    last timestamp an identifier may hold is never minted.  It lies in
    0..2^63-1 when the clock is not before the epoch, and is negative when it
    is. *)
Theorem minted_id_range (g : t) (now id : Z) :
  reachable g ->
  fst (__next__ now g) = Ok (Some id) ->
  id >> 22 = now - _epoch g
  /\ id >> 22 < MAX_TS
  /\ (_epoch g <= now -> 0 <= id < 2 ^ 63)
  /\ (now < _epoch g -> id < 0).
Proof.
  intros Hg Hid. pose proof (reachable_well_formed g Hg) as Hwf.
  pose proof (next_well_formed now g Hwf) as Hwf'.
  destruct (next_minted now g id Hid) as (Hcur & Hg' & _ & ->).
  destruct (minted_sum _ Hwf') as (base & Hbase & Hsum).
  destruct (minted_fields _ (_ts (snd (__next__ now g)))
              (_seq (snd (__next__ now g))) Hwf') as [Hhi _];
    [apply Hwf' |].
  destruct Hwf' as (_ & Hsq' & _).
  unfold last_id. rewrite Hhi, Hsum by exact Hsq'.
  rewrite Hg' in Hsq' |- *. cbn [_ts _seq] in *.
  unfold MAX_TS, MAX_SEQ in *. change (2 ^ 63) with 9223372036854775808.
  repeat split; lia.
Qed.

Lemma minted_id_range_witness :
  let g := {| _epoch := 1000; _ts := 1699999999000; _inf := 139264; _seq := 0 |} in
  7130316795810029568 >> 22 = 1700000000001 - _epoch g
  /\ 0 <= 7130316795810029568 < 2 ^ 63.
Proof.
  intros g.
  pose proof (minted_id_range g 1700000000001 7130316795810029568
                (reach_init _ _ _ _ _ _ _ example_generator) eq_refl) as H.
  split; [exact (proj1 H) | apply (proj1 (proj2 (proj2 H)))]. cbn. lia.
Defined.

(** A generator started before its epoch and a clock that reads before the
    epoch: the identifier is negative, and [parse] refuses it. *)
Example negative_identifier :
  exists g id,
    __init__ 1 2 0 1000 (Some 5) 2000 = Ok g
    /\ _ts g = -995
    /\ fst (__next__ 500 g) = Ok (Some id)
    /\ id < 0
    /\ Snowflake.parse id 1000 = Raise (ValueError TimestampCheck).
Proof.
  eexists. eexists. repeat split; try reflexivity.
Qed.

(** X13. For an identifier in bounds, [from_snowflake] returns a generator
    exactly when the clock counted from the identifier's epoch is below
    [MAX_TS] and neither the identifier's timestamp nor its epoch is after
    the clock.  The generator keeps the epoch, the sequence and the packed
    datacenter and instance; its [_ts] is the identifier's timestamp minus the
    epoch, or the clock minus the epoch when that timestamp is 0. *)
Theorem from_snowflake_succeeds_iff (sf : Snowflake.t) (current : Z) :
  in_bounds sf ->
  ((exists g, from_snowflake sf current = Ok g)
   <-> current - Snowflake.epoch sf < MAX_TS
       /\ Snowflake.timestamp sf <= current
       /\ Snowflake.epoch sf <= current)
  /\ (forall g, from_snowflake sf current = Ok g ->
        _epoch g = Snowflake.epoch sf
        /\ _seq g = Snowflake.seq sf
        /\ _inf g = (Snowflake.datacenter sf << 17) .| (Snowflake.instance sf << 12)
        /\ _ts g = (if Snowflake.timestamp sf =? 0 then current
                    else Snowflake.timestamp sf) - Snowflake.epoch sf).
Proof.
  intros (Hep & Hts & Hdc & Hinst & Hsq). unfold from_snowflake. split.
  - split.
    + intros [g Hg]. apply init_inv in Hg.
      destruct Hg as (_ & Hov & Hts' & Hep' & _). cbn [or_current] in Hts'.
      destruct (Z.eqb_spec (Snowflake.timestamp sf) 0); lia.
    + intros (Hov & Hts' & Hep'). eexists. apply init_ok; try assumption; try lia.
      cbn [or_current]. destruct (Z.eqb_spec (Snowflake.timestamp sf) 0); lia.
  - intros g Hg. apply init_inv in Hg. destruct Hg as (-> & _).
    cbn [_epoch _ts _inf _seq or_current]. repeat split; reflexivity.
Qed.

Lemma from_snowflake_succeeds_iff_witness :
  exists g, from_snowflake (Snowflake.mk 123456789 1 2 0 3) 1700000000000 = Ok g.
Proof.
  refine (proj2 (proj1 (from_snowflake_succeeds_iff
                          (Snowflake.mk 123456789 1 2 0 3) 1700000000000 _)) _);
    unfold in_bounds, MAX_TS, MAX_DATACENTER, MAX_INSTANCE, MAX_SEQ; cbn; lia.
Defined.

(** X14. A generator made by [from_snowflake] from an identifier in bounds
    with epoch 0 and a timestamp that is not 0 stands exactly at that
    identifier: every identifier it returns afterwards, whatever the clock
    does, is greater than the identifier's value. *)
Theorem from_snowflake_resumes (sf : Snowflake.t) (current : Z) (g : t)
    (nows : list Z) :
  in_bounds sf ->
  Snowflake.epoch sf = 0 ->
  Snowflake.timestamp sf <> 0 ->
  from_snowflake sf current = Ok g ->
  last_id g = Snowflake.value sf
  /\ Forall (fun id => Snowflake.value sf < id) (minted (fst (run nows g))).
Proof.
  intros Hb Hep Hts Hg. unfold from_snowflake in Hg.
  pose proof (init_well_formed _ _ _ _ _ _ _ Hg) as Hwf.
  assert (Hlast : last_id g = Snowflake.value sf).
  { apply init_inv in Hg. destruct Hg as (-> & _).
    unfold last_id, Snowflake.value. cbn [_ts _inf _seq or_current].
    destruct (Z.eqb_spec (Snowflake.timestamp sf) 0); [contradiction |].
    rewrite Hep, Z.sub_0_r. destruct Hb as (_ & _ & Hdc & Hinst & Hsq).
    now apply lor_instance_field. }
  split; [exact Hlast |]. rewrite <- Hlast.
  now apply run_minted_sorted.
Qed.

Lemma from_snowflake_resumes_witness :
  let sf := Snowflake.mk 123456789 1 2 0 3 in
  let g := {| _epoch := 0; _ts := 123456789; _inf := 139264; _seq := 3 |} in
  Forall (fun id => Snowflake.value sf < id)
         (minted (fst (run [123456789; 123456788; 1700000000000] g))).
Proof.
  intros sf g.
  refine (proj2 (from_snowflake_resumes sf 1700000000000 g _ _ _ _ _)).
  - unfold in_bounds, MAX_TS, MAX_DATACENTER, MAX_INSTANCE, MAX_SEQ; cbn; lia.
  - reflexivity.
  - discriminate.
  - reflexivity.
Defined.

(** ** The first call *)

(** X15. The first call on a generator built without a start timestamp,
    with a clock that has not gone back and is below the overflow bound,
    returns an identifier: with the sequence after the one given when the
    clock still reads the millisecond of the construction (so a generator
    built with sequence 0 never issues sequence 0 of that millisecond), and
    with sequence 0 when the clock has moved on. *)
Theorem first_call (dc inst sq ep current now : Z) (g : t) :
  __init__ dc inst sq ep None current = Ok g ->
  current <= now ->
  now - ep < MAX_TS ->
  sq < MAX_SEQ ->
  exists id,
    __next__ now g
    = (Ok (Some id),
       {| _epoch := ep; _ts := now - ep; _inf := (dc << 17) .| (inst << 12);
          _seq := if now =? current then sq + 1 else 0 |})
    /\ id >> 22 = now - ep
    /\ id .& MAX_SEQ = (if now =? current then sq + 1 else 0)
    /\ Snowflake.parse id ep
       = Ok (Snowflake.mk (now - ep) dc inst ep (if now =? current then sq + 1 else 0)).
Proof.
  intros Hinit Hnow Hov Hroom.
  pose proof (init_well_formed _ _ _ _ _ _ _ Hinit) as Hwf.
  pose proof (init_inv _ _ _ _ _ _ _ Hinit) as (Hg & _ & _ & Hep & Hdc & Hinst & Hsq).
  cbn [or_current] in Hg.
  assert (Hfields : forall s, 0 <= s <= MAX_SEQ ->
            ((now - ep) << 22 .| _inf g .| s) >> 22 = now - ep
            /\ ((now - ep) << 22 .| _inf g .| s) .& MAX_SEQ = s
            /\ Snowflake.parse ((now - ep) << 22 .| _inf g .| s) ep
               = Ok (Snowflake.mk (now - ep) dc inst ep s)).
  { intros s Hs. destruct (minted_fields g (now - ep) s Hwf Hs) as [Hhi Hlo].
    split; [exact Hhi | split; [exact Hlo |]].
    rewrite Hg. cbn [_inf]. rewrite lor_instance_field. unfold Snowflake.parse.
    rewrite packed_timestamp, packed_datacenter, packed_instance, packed_seq
      by assumption.
    apply new_ok. unfold in_bounds; cbn [Snowflake.epoch Snowflake.timestamp
      Snowflake.datacenter Snowflake.instance Snowflake.seq]. lia. }
  destruct (Z.eqb_spec now current) as [-> | Hne].
  - rewrite next_same_ms by (rewrite Hg; cbn [_epoch _ts _seq]; lia).
    replace (_ts g) with (current - ep) by now rewrite Hg.
    replace (_seq g) with sq by now rewrite Hg.
    eexists. split; [rewrite Hg; reflexivity |]. apply Hfields. lia.
  - rewrite next_advance by (rewrite Hg; cbn [_epoch _ts]; lia).
    replace (_epoch g) with ep by now rewrite Hg.
    eexists. split; [rewrite Hg; reflexivity |]. apply Hfields.
    unfold MAX_SEQ; lia.
Qed.

Lemma first_call_witness :
  exists id,
    __next__ 1700000000000
      {| _epoch := 1000; _ts := 1699999999000; _inf := 139264; _seq := 0 |}
    = (Ok (Some id),
       {| _epoch := 1000; _ts := 1700000000000 - 1000;
          _inf := (1 << 17) .| (2 << 12);
          _seq := if 1700000000000 =? 1700000000000 then 0 + 1 else 0 |})
    /\ id >> 22 = 1700000000000 - 1000
    /\ id .& MAX_SEQ = (if 1700000000000 =? 1700000000000 then 0 + 1 else 0)
    /\ Snowflake.parse id 1000
       = Ok (Snowflake.mk (1700000000000 - 1000) 1 2 1000
               (if 1700000000000 =? 1700000000000 then 0 + 1 else 0)).
Proof.
  refine (first_call 1 2 0 1000 1700000000000 1700000000000 _
            example_generator _ _ _).
  - lia.
  - unfold MAX_TS; lia.
  - unfold MAX_SEQ; lia.
Defined.

(** X16. What the entry point prints, by the two clock readings it takes:
    an identifier of datacenter 1 and instance 0 at the second reading when
    the clock has not gone back, with sequence 1 if both readings are the same
    millisecond and 0 otherwise; [None] when the clock has gone back; and it
    raises when the clock has reached [MAX_TS] or is negative. *)
Theorem main_prints (current now : Z) :
  (0 <= current <= now -> now < MAX_TS ->
   main current now
   = Ok (Some (now * 2 ^ 22 + 2 ^ 17 + (if now =? current then 1 else 0))))
  /\ (0 <= current < MAX_TS -> now < current -> main current now = Ok None)
  /\ (MAX_TS <= current -> main current now = Raise OverflowError)
  /\ (0 <= current < MAX_TS -> MAX_TS <= now ->
      main current now = Raise OverflowError)
  /\ (current < 0 -> main current now = Raise (ValueError TimestampCheck)).
Proof.
  unfold main.
  assert (Hinit : 0 <= current < MAX_TS ->
            __init__ 1 0 0 0 None current
            = Ok {| _epoch := 0; _ts := current - 0;
                    _inf := (1 << 17) .| (0 << 12); _seq := 0 |}).
  { intros H. apply init_ok; cbn [or_current];
      unfold MAX_DATACENTER, MAX_INSTANCE, MAX_SEQ; lia. }
  repeat split.
  - intros Hcur Hnow. rewrite Hinit by lia. cbn [bind].
    change (2 ^ 22) with 4194304. change (2 ^ 17) with 131072.
    destruct (Z.eqb_spec now current) as [-> | Hne].
    + rewrite next_same_ms; cbn [_epoch _ts _inf _seq fst];
        try (unfold MAX_SEQ; lia).
      rewrite Z.sub_0_r, lor_instance_field, packed_sum
        by (unfold MAX_DATACENTER, MAX_INSTANCE, MAX_SEQ; lia).
      do 2 f_equal. lia.
    + rewrite next_advance; cbn [_epoch _ts _inf _seq fst]; try lia.
      rewrite Z.sub_0_r, lor_instance_field, packed_sum
        by (unfold MAX_DATACENTER, MAX_INSTANCE, MAX_SEQ; lia).
      do 2 f_equal. lia.
  - intros Hcur Hnow. rewrite Hinit by lia. cbn [bind].
    rewrite next_backward; cbn [_epoch _ts fst]; try lia. reflexivity.
  - intros Hcur. unfold_init. compare_all; reflexivity.
  - intros Hcur Hnow. rewrite Hinit by lia. cbn [bind].
    rewrite next_overflow; cbn [_epoch fst]; [reflexivity | lia].
  - intros Hcur. unfold_init. cbn [or_current]. unfold MAX_TS.
    compare_all; reflexivity.
Qed.

(** ** Generators side by side *)

Lemma minted_of_generator (dc inst sq ep : Z) (timestamp : option Z)
    (current : Z) (g : t) (nows : list Z) (id : Z) :
  __init__ dc inst sq ep timestamp current = Ok g ->
  In id (minted (fst (run nows g))) ->
  (id >> 17) .& MAX_DATACENTER = dc /\ (id >> 12) .& MAX_INSTANCE = inst.
Proof.
  intros Hinit Hin.
  pose proof (init_well_formed _ _ _ _ _ _ _ Hinit) as Hwf.
  pose proof (run_minted_form nows g Hwf) as Hform.
  rewrite Forall_forall in Hform.
  destruct (Hform id Hin) as (ts & s & Hs & ->).
  apply init_inv in Hinit. destruct Hinit as (-> & _ & _ & _ & Hdc & Hinst & _).
  cbn [_inf]. rewrite lor_instance_field.
  split; [now apply packed_datacenter | now apply packed_instance].
Qed.

(** X17. Two generators built for different datacenters or different
    instances never return the same identifier, whatever their epochs, their
    clocks and the calls made on each: an identifier returned by both would
    force the same datacenter and the same instance. *)
Theorem generators_never_collide
    (dc1 inst1 sq1 ep1 : Z) (ts1 : option Z) (c1 : Z) (g1 : t) (nows1 : list Z)
    (dc2 inst2 sq2 ep2 : Z) (ts2 : option Z) (c2 : Z) (g2 : t) (nows2 : list Z)
    (id : Z) :
  __init__ dc1 inst1 sq1 ep1 ts1 c1 = Ok g1 ->
  __init__ dc2 inst2 sq2 ep2 ts2 c2 = Ok g2 ->
  In id (minted (fst (run nows1 g1))) ->
  In id (minted (fst (run nows2 g2))) ->
  dc1 = dc2 /\ inst1 = inst2.
Proof.
  intros H1 H2 Hin1 Hin2.
  destruct (minted_of_generator _ _ _ _ _ _ _ _ _ H1 Hin1) as [Hd1 Hi1].
  destruct (minted_of_generator _ _ _ _ _ _ _ _ _ H2 Hin2) as [Hd2 Hi2].
  split; congruence.
Qed.

Lemma generators_never_collide_witness : 1 = 1 /\ 2 = 2.
Proof.
  refine (generators_never_collide
            1 2 0 1000 None 1700000000000 _ [1700000000001]
            1 2 0 1000 None 1700000000000 _ [1700000000000; 1700000000001]
            7130316795810029568 example_generator example_generator _ _).
  - left. reflexivity.
  - right. left. reflexivity.
Defined.
